(** * Lineage panel of vscode-dbt-power-user: graph index, resolver, queries

    Shallow embedding of [src/webview_provider/lineagePanel.ts] (the
    [LineagePanel] class that owns [eventMap]) and proofs of the properties
    stated for its store, node resolver, connected-tables query and request
    gateway. *)

From Stdlib Require Import ZArith Ascii String List Sorting.Sorted Permutation Lia.
From stdpp Require Import base option gmap strings list.

Local Open Scope string_scope.
Local Open Scope Z_scope.

(** ** Built-ins of the JavaScript runtime

    [localeCompare] is [String.prototype.localeCompare] with the host locale
    (negative, zero or positive), [path_basename] is Node's
    [path.basename(p, ext)].  Neither is code of the repository, so both are
    fields of an interface that the definitions below are parametric in. *)
Class Runtime := {
  localeCompare : string -> string -> Z;
  path_basename : string -> string -> string
}.

(** [k.startsWith(p)] *)
Definition startsWith (k p : string) : bool := String.prefix p k.

(** [k.endsWith(s)]: the last [length s] code units of [k] are [s]. *)
Definition endsWith (k s : string) : bool :=
  let n := String.length k in
  let m := String.length s in
  if (m <=? n)%nat then String.eqb (String.substring (n - m) m k) s else false.

(** ** [Map<string, V>]: insertion-ordered, as iterated by [keys()] / [values()] *)
Module JSMap.
Definition t (V : Type) : Type := list (string * V).

Definition empty {V} : t V := [].

Fixpoint get {V} (m : t V) (k : string) : option V :=
  match m with
  | [] => None
  | (k', v) :: m' => if String.eqb k' k then Some v else get m' k
  end.

Definition has {V} (m : t V) (k : string) : bool :=
  match get m k with Some _ => true | None => false end.

(** [set] keeps the position of a key that is already present and appends a
    new key at the end. *)
Fixpoint set {V} (m : t V) (k : string) (v : V) : t V :=
  match m with
  | [] => [(k, v)]
  | (k', v') :: m' =>
      if String.eqb k' k then (k', v) :: m' else (k', v') :: set m' k v
  end.

Definition keys {V} (m : t V) : list string := map fst m.
Definition values {V} (m : t V) : list V := map snd m.
End JSMap.

(** ** [Array.prototype.sort(cmp)]

    The sort is stable; an element goes before the first element it does not
    compare greater than. *)
Section ArraySort.
Context {A : Type} (cmp : A -> A -> Z).

Fixpoint sort_insert (x : A) (l : list A) : list A :=
  match l with
  | [] => [x]
  | y :: l' => if cmp x y <=? 0 then x :: l else y :: sort_insert x l'
  end.

Definition Array_sort (l : list A) : list A := fold_right sort_insert [] l.
End ArraySort.

(** ** Data model *)

(** [vscode.Uri], the two fields the panel reads. *)
Record Uri := { fsPath : string; path : string }.
Record TextDocument := { uri : Uri; fileName : string }.
Record TextEditor := { document : TextDocument }.

(** An element of [nodes]: [{ key, url, label }]. *)
Record Child := { child_key : string; child_url : string; child_label : string }.

(** A value of an adjacency view: [{ nodes: any[] }]. *)
Record NodeMeta := { nodes : list Child }.

(** Modelled from the spec: [GraphMetaMap] is declared in [src/domain.ts],
    which is not among the sources; the panel indexes it with ["parents"]
    (the downstream-view) and ["children"] (the upstream-view), each a
    [Map<string, { nodes }>]. *)
Record GraphMetaMap := {
  parents : JSMap.t NodeMeta;
  children : JSMap.t NodeMeta
}.

(** [keyof GraphMetaMap] *)
Inductive GraphMetaMapKey := Kparents | Kchildren.

(** [graphMetaMap[key]] *)
Definition view (g : GraphMetaMap) (k : GraphMetaMapKey) : JSMap.t NodeMeta :=
  match k with Kparents => parents g | Kchildren => children g end.

(** Modelled from the spec: the event types are declared in
    [src/manifest/event/manifestCacheChangedEvent.ts], which is not among the
    sources; an added event carries the project root and the snapshot, a
    removed event the project root, and a change lists both optionally. *)
Record ManifestCacheProjectAddedEvent := {
  projectRoot : Uri;
  graphMetaMap : GraphMetaMap
}.
Record ManifestCacheProjectRemovedEvent := { removed_projectRoot : Uri }.
Record ManifestCacheChangedEvent := {
  added : option (list ManifestCacheProjectAddedEvent);
  removed : option (list ManifestCacheProjectRemovedEvent)
}.

Record Table := { table : string; url : string; count : nat; label : string }.

(** The [node] object of a ["render"] message. *)
Record StartingNode := {
  node_table : string;
  node_url : string;
  upstreamCount : nat;
  downstreamCount : nat
}.

(** The [body] of a response: [{ tables }], where [tables] may be undefined. *)
Record Body := { tables : option (list Table) }.

(** Messages posted to the webview. *)
Inductive Message :=
| Render (args : option StartingNode)
| Response (id : Z) (body : option Body) (status : bool).

(** [args] of a ["request"] message. *)
Record RequestParams := { params_table : string }.
Record RequestArgs := { args_url : string; args_id : Z; params : RequestParams }.

(** Messages received from the webview. *)
Inductive Incoming :=
| OpenFile (file_url : string)
| Request (args : RequestArgs)
| Unknown.

(** The webview view, reduced to the messages posted to it so far. *)
Record WebviewView := { posted : list Message }.

(** The mutable fields of [LineagePanel]. *)
Record LineagePanel := {
  _panel : option WebviewView;
  eventMap : gmap string ManifestCacheProjectAddedEvent
}.

(** What the panel reads from its host: [window.activeTextEditor] and
    [dbtProjectContainer.getProjectRootpath]. *)
Record Host := {
  activeTextEditor : option TextEditor;
  getProjectRootpath : Uri -> option Uri
}.

(** ** Operations *)

(** [webview.postMessage(m)] *)
Definition postMessage (p : WebviewView) (m : Message) : WebviewView :=
  {| posted := posted p ++ [m] |}.

(** [this._panel?.webview.postMessage(m)] *)
Definition panel_post (this : LineagePanel) (m : Message) : LineagePanel :=
  match _panel this with
  | None => this
  | Some p => {| _panel := Some (postMessage p m); eventMap := eventMap this |}
  end.

Definition getGraphMetaMap (h : Host) (this : LineagePanel) : option GraphMetaMap :=
  match activeTextEditor h with
  | None => None
  | Some editor =>
      let currentFilePath := uri (document editor) in
      match getProjectRootpath h currentFilePath with
      | None => None
      | Some projectRootpath =>
          match eventMap this !! fsPath projectRootpath with
          | None => None
          | Some event => Some (graphMetaMap event)
          end
      end
  end.

(** [dependencyNodes.get(k)?.nodes.length || 0] *)
Definition degree (dependencyNodes : JSMap.t NodeMeta) (k : string) : nat :=
  match JSMap.get dependencyNodes k with
  | Some n => length (nodes n)
  | None => 0%nat
  end.

(** The predicate passed to [find] in [getStartingNode]. *)
Definition matchesFile (fileName k : string) : bool :=
  endsWith k ("." ++ fileName) && startsWith k "model.".

Definition getStartingNode `{Runtime} (h : Host) (this : LineagePanel)
  : option StartingNode :=
  match getGraphMetaMap h this with
  | None => None
  | Some g =>
      match activeTextEditor h with
      | None => None
      | Some editor =>
          let fileName := path_basename (fileName (document editor)) ".sql" in
          let dependencyNodes := view g Kparents in
          match find (matchesFile fileName) (JSMap.keys dependencyNodes) with
          | None => None
          | Some key =>
              if String.eqb key "" then None
              else
                Some {| node_table := key;
                        node_url := path (uri (document editor));
                        upstreamCount := degree (view g Kchildren) key;
                        downstreamCount := degree dependencyNodes key |}
          end
      end
  end.

Definition addToTables (tables : JSMap.t Table) (key : string)
    (value_url : string) (value_count : nat) (value_label : string)
  : JSMap.t Table :=
  if JSMap.has tables key then tables
  else JSMap.set tables key
         {| table := key; url := value_url; count := value_count;
            label := value_label |}.

(** The body of [node.nodes.forEach] in [getConnectedTables]. *)
Definition addChild (dependencyNodes : JSMap.t NodeMeta)
    (tables : JSMap.t Table) (child : Child) : JSMap.t Table :=
  let count := degree dependencyNodes (child_key child) in
  addToTables tables (child_key child) (child_url child) count (child_label child).

Definition getConnectedTables `{Runtime} (h : Host) (this : LineagePanel)
    (key : GraphMetaMapKey) (table : string) : option (list Table) :=
  match getGraphMetaMap h this with
  | None => None
  | Some g =>
      let dependencyNodes := view g key in
      match JSMap.get dependencyNodes table with
      | None => None
      | Some node =>
          let tables := fold_left (addChild dependencyNodes) (nodes node) JSMap.empty in
          Some (Array_sort (fun a b => localeCompare (label a) (label b))
                  (JSMap.values tables))
      end
  end.

Definition getUpstreamTables `{Runtime} (h : Host) (this : LineagePanel)
    (p : RequestParams) : option (list Table) :=
  getConnectedTables h this Kchildren (params_table p).

Definition getDownstreamTables `{Runtime} (h : Host) (this : LineagePanel)
    (p : RequestParams) : option (list Table) :=
  getConnectedTables h this Kparents (params_table p).

Definition renderStartingNode `{Runtime} (h : Host) (this : LineagePanel)
  : LineagePanel :=
  match _panel this with
  | None => this
  | Some _ => panel_post this (Render (getStartingNode h this))
  end.

Definition onManifestCacheChanged `{Runtime} (h : Host) (this : LineagePanel)
    (event : ManifestCacheChangedEvent) : LineagePanel :=
  let m1 :=
    match added event with
    | None => eventMap this
    | Some l =>
        fold_left (fun m a => <[fsPath (projectRoot a) := a]> m) l (eventMap this)
    end in
  let m2 :=
    match removed event with
    | None => m1
    | Some l =>
        fold_left (fun m r => delete (fsPath (removed_projectRoot r)) m) l m1
    end in
  renderStartingNode h {| _panel := _panel this; eventMap := m2 |}.

Definition handleRequest `{Runtime} (h : Host) (this : LineagePanel)
    (args : RequestArgs) : LineagePanel :=
  let body := None in
  let body :=
    if String.eqb (args_url args) "upstreamTables"
    then Some {| tables := getUpstreamTables h this (params args) |}
    else body in
  let body :=
    if String.eqb (args_url args) "downstreamTables"
    then Some {| tables := getDownstreamTables h this (params args) |}
    else body in
  panel_post this (Response (args_id args) body true).

(** The listener installed by [setupWebviewHooks]; opening a file is an
    effect on the editor only. *)
Definition onDidReceiveMessage `{Runtime} (h : Host) (this : LineagePanel)
    (message : Incoming) : LineagePanel :=
  match message with
  | OpenFile _ => this
  | Request args => handleRequest h this args
  | Unknown => this
  end.

(** [resolveWebviewView]: the panel becomes available. *)
Definition resolveWebviewView (this : LineagePanel) (panel : WebviewView)
  : LineagePanel :=
  {| _panel := Some panel; eventMap := eventMap this |}.

(** ** A reference runtime and sample data for the examples *)

(** Comparison by code units, as the ["C"] locale collates. *)
Definition codeUnitCompare (a b : string) : Z :=
  match String.compare a b with
  | Lt => -1
  | Eq => 0
  | Gt => 1
  end.

(** The part of [p] after its last ['/']. *)
Fixpoint lastSegment (p acc : string) : string :=
  match p with
  | EmptyString => acc
  | String c p' =>
      if Ascii.eqb c "/"%char then lastSegment p' EmptyString
      else lastSegment p' (acc ++ String c EmptyString)
  end.

(** POSIX [basename] for paths without a trailing separator. *)
Definition posixBasename (p ext : string) : string :=
  let b := lastSegment p EmptyString in
  if endsWith b ext && negb (String.eqb b ext)
  then String.substring 0 (String.length b - String.length ext) b
  else b.

Definition sampleRuntime : Runtime :=
  {| localeCompare := codeUnitCompare; path_basename := posixBasename |}.

Definition mkChild (k u l : string) : Child :=
  {| child_key := k; child_url := u; child_label := l |}.

Definition stgOrders : Child :=
  mkChild "model.proj.stg_orders" "/proj/models/stg_orders.sql" "stg_orders".
Definition stgPayments : Child :=
  mkChild "model.proj.stg_payments" "/proj/models/stg_payments.sql" "stg_payments".
Definition rawOrders : Child :=
  mkChild "source.proj.raw_orders" "/proj/models/sources.yml" "raw_orders".
(** A second reference to [stg_orders] with another label and locator. *)
Definition stgOrdersAgain : Child :=
  mkChild "model.proj.stg_orders" "/proj/models/other.sql" "a_duplicate".
Definition ordersChild : Child :=
  mkChild "model.proj.orders" "/proj/models/orders.sql" "orders".

Definition sampleGraph : GraphMetaMap :=
  {| parents :=
       [ ("model.proj.stg_orders", {| nodes := [ordersChild] |});
         ("model.proj.orders", {| nodes := [] |});
         ("model.other.orders", {| nodes := [] |}) ];
     children :=
       [ ("model.proj.orders",
          {| nodes := [stgPayments; stgOrders; stgOrdersAgain] |});
         ("model.proj.stg_orders", {| nodes := [rawOrders] |}) ] |}.

(** The same project with another downstream-view. *)
Definition sampleGraph' : GraphMetaMap :=
  {| parents := [ ("model.proj.orders", {| nodes := [] |}) ];
     children := children sampleGraph |}.

(** The same project with another upstream-view. *)
Definition sampleGraph'' : GraphMetaMap :=
  {| parents := parents sampleGraph;
     children := [ ("model.proj.orders", {| nodes := [stgPayments] |}) ] |}.

Definition projUri : Uri := {| fsPath := "/proj"; path := "/proj" |}.
Definition ordersUri : Uri :=
  {| fsPath := "/proj/models/orders.sql"; path := "/proj/models/orders.sql" |}.

Definition sampleHost : Host :=
  {| activeTextEditor :=
       Some {| document :=
                 {| uri := ordersUri; fileName := "/proj/models/orders.sql" |} |};
     getProjectRootpath := fun _ => Some projUri |}.

Definition sampleAdded : ManifestCacheProjectAddedEvent :=
  {| projectRoot := projUri; graphMetaMap := sampleGraph |}.
Definition sampleAdded' : ManifestCacheProjectAddedEvent :=
  {| projectRoot := projUri; graphMetaMap := sampleGraph' |}.

Definition emptyPanel : LineagePanel :=
  {| _panel := Some {| posted := [] |}; eventMap := ∅ |}.

Definition samplePanel : LineagePanel :=
  {| _panel := Some {| posted := [] |}; eventMap := {[ "/proj" := sampleAdded ]} |}.
Definition samplePanel' : LineagePanel :=
  {| _panel := Some {| posted := [] |}; eventMap := {[ "/proj" := sampleAdded' ]} |}.

Definition sampleAdded'' : ManifestCacheProjectAddedEvent :=
  {| projectRoot := projUri; graphMetaMap := sampleGraph'' |}.
Definition samplePanel'' : LineagePanel :=
  {| _panel := Some {| posted := [] |}; eventMap := {[ "/proj" := sampleAdded'' ]} |}.

Definition sampleEditor : TextEditor :=
  {| document := {| uri := ordersUri; fileName := "/proj/models/orders.sql" |} |}.

(** The upstream tables of [model.proj.orders] in [sampleGraph]. *)
Definition sampleUpstream : list Table :=
  [ {| table := "model.proj.stg_orders"; url := "/proj/models/stg_orders.sql";
       count := 1; label := "stg_orders" |};
    {| table := "model.proj.stg_payments"; url := "/proj/models/stg_payments.sql";
       count := 0; label := "stg_payments" |} ].

Definition ordersParams : RequestParams := {| params_table := "model.proj.orders" |}.

(** A request for a resource the gateway does not know. *)
Definition columnsRequest : RequestArgs :=
  {| args_url := "columns"; args_id := 7; params := ordersParams |}.

(** The entry that [addChild] records for a child. *)
Definition tableOf (dependencyNodes : JSMap.t NodeMeta) (c : Child) : Table :=
  {| table := child_key c;
     url := child_url c;
     count := degree dependencyNodes (child_key c);
     label := child_label c |}.

(** The first element of [l] whose key is [k]. *)
Definition firstWithKey (k : string) (l : list Child) : option Child :=
  find (fun c => String.eqb (child_key c) k) l.

(** The order the result is sorted by. *)
Definition labelLe `{Runtime} (a b : Table) : Prop :=
  localeCompare (label a) (label b) <= 0.

(** ** Further functions of the panel *)

(** The listener that the constructor registers with
    [window.onDidChangeActiveTextEditor]; [h] is the host when it runs. *)
Definition onDidChangeActiveTextEditor `{Runtime} (h : Host) (this : LineagePanel)
    (event : option TextEditor) : LineagePanel :=
  match event with
  | None => this
  | Some _ =>
      match _panel this with
      | None => this
      | Some _ => renderStartingNode h this
      end
  end.

(** [s.charAt(n)]: the empty string when [n] is out of range. *)
Definition charAt (s : string) (n : nat) : string :=
  match String.get n s with
  | Some c => String c EmptyString
  | None => EmptyString
  end.

Definition possible : string :=
  "ABCDEFGHIJKLMNOPQRSTUVWXYZabcdefghijklmnopqrstuvwxyz0123456789".

(** The loop of [getNonce] at iteration [i] with [n] iterations left;
    [rand i] is the value of [Math.floor(Math.random() * possible.length)]
    drawn at iteration [i]. *)
Fixpoint getNonce_loop (rand : nat -> nat) (i n : nat) (text : string) : string :=
  match n with
  | O => text
  | S n' => getNonce_loop rand (S i) n' (text ++ charAt possible (rand i))
  end.

Definition getNonce (rand : nat -> nat) : string :=
  getNonce_loop rand 0 32 EmptyString.

(** The elements that [o?.forEach] visits: none when [o] is undefined. *)
Definition visited {A} (o : option (list A)) : list A :=
  match o with Some l => l | None => [] end.

Definition addedRoot (a : ManifestCacheProjectAddedEvent) : string :=
  fsPath (projectRoot a).
Definition removedRoot (r : ManifestCacheProjectRemovedEvent) : string :=
  fsPath (removed_projectRoot r).

(** The last event of [l] for the project rooted at [p]. *)
Definition lastAdded (p : string) (l : list ManifestCacheProjectAddedEvent)
  : option ManifestCacheProjectAddedEvent :=
  find (fun a => String.eqb (addedRoot a) p) (rev l).

(** The messages posted to the panel so far; none without a panel. *)
Definition outbox (this : LineagePanel) : list Message :=
  match _panel this with Some p => posted p | None => [] end.

(** More sample data. *)
Definition sampleRemoved : ManifestCacheProjectRemovedEvent :=
  {| removed_projectRoot := projUri |}.
Definition otherUri : Uri := {| fsPath := "/other"; path := "/other" |}.
Definition otherAdded : ManifestCacheProjectAddedEvent :=
  {| projectRoot := otherUri; graphMetaMap := sampleGraph' |}.
Definition sampleRand (i : nat) : nat := ((i * 7) mod 62)%nat.

(** A neighbor sequence with distinct keys, in label order. *)
Definition sortedGraph : GraphMetaMap :=
  {| parents := [];
     children :=
       [ ("model.proj.orders", {| nodes := [stgOrders; stgPayments] |}) ] |}.
Definition sortedPanel : LineagePanel :=
  {| _panel := None;
     eventMap := {[ "/proj" := {| projectRoot := projUri;
                                  graphMetaMap := sortedGraph |} ]} |}.

(** ** Facts about [JSMap] *)
Module JSMapFacts.
Import JSMap.

Lemma get_None_keys {V} (m : t V) k : get m k = None <-> ~ In k (keys m).
Proof.
  induction m as [|[k' v] m IH]; simpl.
  - tauto.
  - destruct (String.eqb_spec k' k) as [->|Hne].
    + split; [discriminate | intros Hn; exfalso; apply Hn; now left].
    + rewrite IH. split.
      * intros Hn [E|Hin]; [congruence | tauto].
      * intros Hn Hin. apply Hn. now right.
Qed.

Lemma get_In {V} (m : t V) k v : get m k = Some v -> In (k, v) m.
Proof.
  induction m as [|[k' v'] m IH]; simpl; [discriminate|].
  destruct (String.eqb_spec k' k) as [->|Hne].
  - intros [= ->]. now left.
  - intros Hg. right. now apply IH.
Qed.

Lemma In_get {V} (m : t V) k v :
  List.NoDup (keys m) -> In (k, v) m -> get m k = Some v.
Proof.
  induction m as [|[k' v'] m IH]; simpl; [tauto|].
  intros Hnd [E|Hin].
  - injection E as -> ->. now rewrite String.eqb_refl.
  - apply NoDup_cons_iff in Hnd as [Hni Hnd].
    destruct (String.eqb_spec k' k) as [->|Hne].
    + exfalso. apply Hni. change k with (fst (k, v)). now apply in_map.
    + now apply IH.
Qed.

Lemma get_app {V} (m m' : t V) k :
  get (m ++ m')%list k = match get m k with Some v => Some v | None => get m' k end.
Proof.
  induction m as [|[k' v'] m IH]; simpl; [reflexivity|].
  now destruct (String.eqb k' k).
Qed.

Lemma set_fresh {V} (m : t V) k v : get m k = None -> set m k v = (m ++ [(k, v)])%list.
Proof.
  induction m as [|[k' v'] m IH]; simpl; [reflexivity|].
  destruct (String.eqb k' k); [discriminate|].
  intros Hg. now rewrite IH.
Qed.

Lemma keys_app {V} (m m' : t V) : keys (m ++ m')%list = (keys m ++ keys m')%list.
Proof. apply map_app. Qed.
End JSMapFacts.

(** ** Facts about [Array_sort] *)
Section ArraySortFacts.
Context {A : Type} (cmp : A -> A -> Z).
Let R (a b : A) : Prop := cmp a b <= 0.

Lemma sort_insert_perm x l : Permutation (x :: l) (sort_insert cmp x l).
Proof.
  induction l as [|y l IH]; simpl; [reflexivity|].
  destruct (cmp x y <=? 0); [reflexivity|].
  rewrite perm_swap. now constructor.
Qed.

Lemma Array_sort_perm l : Permutation l (Array_sort cmp l).
Proof.
  induction l as [|x l IH]; simpl; [reflexivity|].
  rewrite <- sort_insert_perm. now constructor.
Qed.

Hypothesis cmp_total : forall a b, cmp a b <= 0 \/ cmp b a <= 0.
Hypothesis cmp_trans : forall a b c, cmp a b <= 0 -> cmp b c <= 0 -> cmp a c <= 0.

Lemma sort_insert_sorted x l :
  StronglySorted R l -> StronglySorted R (sort_insert cmp x l).
Proof.
  induction l as [|y l IH]; simpl; intros Hs.
  - repeat constructor.
  - apply StronglySorted_inv in Hs as [Hs Hy].
    destruct (Z.leb_spec (cmp x y) 0) as [Hle|Hgt].
    + constructor; [now constructor|].
      constructor; [exact Hle|].
      eapply Forall_impl; [exact Hy|].
      intros z Hz. now apply cmp_trans with y.
    + constructor; [now apply IH|].
      apply List.Forall_forall. intros z Hz.
      apply (Permutation_in _ (Permutation_sym (sort_insert_perm x l))) in Hz.
      destruct Hz as [<-|Hz].
      * destruct (cmp_total x y); [lia | assumption].
      * rewrite List.Forall_forall in Hy. now apply Hy.
Qed.

Lemma Array_sort_sorted l : StronglySorted R (Array_sort cmp l).
Proof.
  induction l as [|x l IH]; simpl; [constructor|].
  now apply sort_insert_sorted.
Qed.
End ArraySortFacts.

(** ** The deduplicating loop of [getConnectedTables] *)
Section Dedup.
Import JSMap JSMapFacts.
Variable dn : JSMap.t NodeMeta.

Lemma addChild_get acc c k :
  get (addChild dn acc c) k =
    match get acc k with
    | Some v => Some v
    | None => if String.eqb (child_key c) k then Some (tableOf dn c) else None
    end.
Proof.
  unfold addChild, addToTables, has.
  destruct (get acc (child_key c)) as [v0|] eqn:Hc.
  - destruct (get acc k) eqn:Hk; [reflexivity|].
    destruct (String.eqb_spec (child_key c) k) as [E|]; [|reflexivity].
    congruence.
  - rewrite set_fresh by assumption. rewrite get_app. reflexivity.
Qed.

Lemma fold_addChild_get l acc k :
  get (fold_left (addChild dn) l acc) k =
    match get acc k with
    | Some v => Some v
    | None => option_map (tableOf dn) (firstWithKey k l)
    end.
Proof.
  revert acc. induction l as [|c l IH]; intros acc; simpl.
  - now destruct (get acc k).
  - rewrite IH, addChild_get. destruct (get acc k); [reflexivity|].
    unfold firstWithKey. simpl.
    now destruct (String.eqb (child_key c) k).
Qed.

Lemma addChild_keys_NoDup acc c :
  List.NoDup (keys acc) -> List.NoDup (keys (addChild dn acc c)).
Proof.
  unfold addChild, addToTables, has.
  destruct (get acc (child_key c)) eqn:Hc; [auto|].
  intros Hnd. rewrite set_fresh, keys_app by assumption. simpl.
  apply (Permutation_NoDup (Permutation_cons_append _ _)).
  constructor; [now apply get_None_keys | assumption].
Qed.

Lemma fold_addChild_keys_NoDup l acc :
  List.NoDup (keys acc) -> List.NoDup (keys (fold_left (addChild dn) l acc)).
Proof.
  revert acc. induction l as [|c l IH]; intros acc Hnd; simpl; [assumption|].
  now apply IH, addChild_keys_NoDup.
Qed.

Lemma firstWithKey_key k l c : firstWithKey k l = Some c -> child_key c = k.
Proof.
  intros Hf. apply find_some in Hf as [_ Hk]. now apply String.eqb_eq.
Qed.

Lemma firstWithKey_In_nodes k l c : firstWithKey k l = Some c -> In c l.
Proof. intros Hf. now apply find_some in Hf as [Hin _]. Qed.

Lemma firstWithKey_exists l c :
  In c l -> exists c0, firstWithKey (child_key c) l = Some c0.
Proof.
  intros Hin. unfold firstWithKey.
  destruct (find _ l) as [c0|] eqn:Hf; [now exists c0|].
  apply (find_none _ _ Hf) in Hin. simpl in Hin.
  now rewrite String.eqb_refl in Hin.
Qed.

Lemma values_table_keys (m : t Table) :
  (forall k v, In (k, v) m -> table v = k) -> map table (values m) = keys m.
Proof.
  induction m as [|[k v] m IH]; intros Hm; simpl; [reflexivity|].
  f_equal.
  - apply Hm. now left.
  - apply IH. intros k' v' Hin. apply Hm. now right.
Qed.

(** What the loop leaves in [tables]: one entry per distinct key, built
    from the first child that carries the key. *)
Lemma dedup_entries l :
  let T := fold_left (addChild dn) l empty in
  List.NoDup (map table (values T)) /\
  (forall e, In e (values T) <->
             exists c, firstWithKey (table e) l = Some c /\ e = tableOf dn c).
Proof.
  intros T.
  assert (Hnd : List.NoDup (keys T))
    by (apply fold_addChild_keys_NoDup; constructor).
  assert (Hget : forall k, get T k = option_map (tableOf dn) (firstWithKey k l))
    by (intros k; unfold T; now rewrite fold_addChild_get).
  assert (Hpair : forall k v, In (k, v) T -> table v = k).
  { intros k v Hin. apply In_get in Hin; [|assumption].
    rewrite Hget in Hin. destruct (firstWithKey k l) as [c|] eqn:Hf; [|discriminate].
    injection Hin as <-. simpl. now apply firstWithKey_key in Hf. }
  split.
  - now rewrite values_table_keys.
  - intros e. split.
    + intros Hin. apply in_map_iff in Hin as [[k v] [E Hin]]. simpl in E. subst v.
      pose proof (Hpair _ _ Hin) as Hk. subst k.
      apply In_get in Hin; [|assumption]. rewrite Hget in Hin.
      destruct (firstWithKey (table e) l) as [c|]; [|discriminate].
      injection Hin as <-. now exists c.
    + intros [c [Hf ->]].
      assert (Hg : get T (table (tableOf dn c)) = Some (tableOf dn c))
        by (rewrite Hget, Hf; reflexivity).
      apply get_In in Hg. change (tableOf dn c) with (snd (table (tableOf dn c), tableOf dn c)).
      now apply in_map.
Qed.
End Dedup.

(** ** Connected-tables query *)
Section Queries.
Context `{rt : Runtime}.

Lemma getConnectedTables_Some h this key t r :
  getConnectedTables h this key t = Some r ->
  exists g node,
    getGraphMetaMap h this = Some g /\
    JSMap.get (view g key) t = Some node /\
    Permutation
      (JSMap.values (fold_left (addChild (view g key)) (nodes node) JSMap.empty)) r /\
    r = Array_sort (fun a b => localeCompare (label a) (label b))
          (JSMap.values (fold_left (addChild (view g key)) (nodes node) JSMap.empty)).
Proof.
  unfold getConnectedTables.
  destruct (getGraphMetaMap h this) as [g|]; [|discriminate].
  destruct (JSMap.get (view g key) t) as [node|] eqn:Hn; [|discriminate].
  intros [= <-]. exists g, node.
  split; [reflexivity|]. split; [exact Hn|].
  split; [apply Array_sort_perm | reflexivity].
Qed.

(** C1 (amended). When the snapshot of the active project has no entry for
    the node key in the selected view, the query returns the absent value
    ([undefined]); it produces no sequence and raises no error. *)
Theorem connected_absent_key_undefined h this key t g :
  getGraphMetaMap h this = Some g ->
  JSMap.get (view g key) t = None ->
  getConnectedTables h this key t = None.
Proof.
  intros Hg Hn. unfold getConnectedTables. now rewrite Hg, Hn.
Qed.

(** C3. An upstream query is determined by the upstream-view ([children])
    and a downstream query by the downstream-view ([parents]): two
    snapshots that agree on the selected view give the same result,
    whatever the other view holds. *)
Theorem query_reads_only_selected_view h h' this this' g g' p :
  getGraphMetaMap h this = Some g ->
  getGraphMetaMap h' this' = Some g' ->
  (children g = children g' ->
   getUpstreamTables h this p = getUpstreamTables h' this' p) /\
  (parents g = parents g' ->
   getDownstreamTables h this p = getDownstreamTables h' this' p).
Proof.
  intros Hg Hg'.
  unfold getUpstreamTables, getDownstreamTables, getConnectedTables.
  rewrite Hg, Hg'. simpl. split; intros ->; reflexivity.
Qed.

(** C4. In a query result the [table] values are pairwise distinct, every
    key of the neighbor sequence has an entry, and the entry of a key
    carries the url, label and count of the first neighbor with that key. *)
Theorem connected_dedup_first_wins h this key t r g node :
  getGraphMetaMap h this = Some g ->
  JSMap.get (view g key) t = Some node ->
  getConnectedTables h this key t = Some r ->
  List.NoDup (map table r) /\
  (forall c, In c (nodes node) -> exists e, In e r /\ table e = child_key c) /\
  (forall e, In e r ->
     exists c0, firstWithKey (table e) (nodes node) = Some c0 /\
                url e = child_url c0 /\
                label e = child_label c0 /\
                count e = degree (view g key) (child_key c0)).
Proof.
  intros Hg Hn Hr.
  apply getConnectedTables_Some in Hr as (g0 & node0 & Hg0 & Hn0 & Hperm & _).
  rewrite Hg in Hg0. injection Hg0 as <-.
  rewrite Hn in Hn0. injection Hn0 as <-.
  destruct (dedup_entries (view g key) (nodes node)) as [Hnd Hent].
  split; [|split].
  - eapply Permutation_NoDup; [|exact Hnd]. now apply Permutation_map.
  - intros c Hc. destruct (firstWithKey_exists _ _ Hc) as [c0 Hf].
    exists (tableOf (view g key) c0). split.
    + eapply Permutation_in; [exact Hperm|]. apply Hent. exists c0.
      split; [|reflexivity]. simpl.
      now rewrite (firstWithKey_key _ _ _ Hf).
    + simpl. now apply firstWithKey_key in Hf.
  - intros e He. apply (Permutation_in _ (Permutation_sym Hperm)) in He.
    apply Hent in He as [c0 [Hf ->]]. exists c0. now repeat split.
Qed.

(** C5. A query result is sorted by [label], ascending, in the order of
    [localeCompare], provided [localeCompare] is a total and transitive
    comparison, as a collation is. *)
Theorem connected_sorted_by_label h this key t r :
  (forall a b, localeCompare a b <= 0 \/ localeCompare b a <= 0) ->
  (forall a b c, localeCompare a b <= 0 -> localeCompare b c <= 0 ->
                 localeCompare a c <= 0) ->
  getConnectedTables h this key t = Some r ->
  StronglySorted labelLe r.
Proof.
  intros Htot Htrans Hr.
  apply getConnectedTables_Some in Hr as (g & node & _ & _ & _ & ->).
  apply Array_sort_sorted.
  - intros a b. apply Htot.
  - intros a b c. apply Htrans.
Qed.

(** C6. Each entry's [count] is the length of the neighbor sequence that
    the entry's key has as a primary key in the same view, and 0 when the
    key has no entry there. *)
Theorem connected_count_is_own_degree h this key t r g :
  getGraphMetaMap h this = Some g ->
  getConnectedTables h this key t = Some r ->
  forall e, In e r ->
    count e = match JSMap.get (view g key) (table e) with
              | Some n => length (nodes n)
              | None => 0%nat
              end.
Proof.
  intros Hg Hr e He.
  apply getConnectedTables_Some in Hr as (g0 & node & Hg0 & _ & Hperm & _).
  rewrite Hg in Hg0. injection Hg0 as <-.
  apply (Permutation_in _ (Permutation_sym Hperm)) in He.
  apply (dedup_entries (view g key) (nodes node)) in He as [c [_ ->]].
  reflexivity.
Qed.
End Queries.

(** ** Node resolver *)
Section Resolver.
Context `{rt : Runtime}.

Lemma find_first_split {A} (f : A -> bool) l x :
  find f l = Some x ->
  f x = true /\
  exists l1 l2, l = (l1 ++ x :: l2)%list /\ forall y, In y l1 -> f y = false.
Proof.
  induction l as [|a l IH]; simpl; [discriminate|].
  destruct (f a) eqn:Ha.
  - intros [= <-]. split; [assumption|]. exists [], l. split; [reflexivity|].
    intros y [].
  - intros Hf. destruct (IH Hf) as [Hx (l1 & l2 & -> & Hl1)].
    split; [assumption|]. exists (a :: l1), l2. split; [reflexivity|].
    intros y [<-|Hy]; [assumption | now apply Hl1].
Qed.

Lemma matchesFile_nonempty base k : matchesFile base k = true -> k <> "".
Proof.
  unfold matchesFile, startsWith. intros Hm ->.
  apply andb_true_iff in Hm as [_ Hp]. discriminate Hp.
Qed.

Lemma getStartingNode_find h this g ed :
  getGraphMetaMap h this = Some g ->
  activeTextEditor h = Some ed ->
  option_map node_table (getStartingNode h this) =
    find (matchesFile (path_basename (fileName (document ed)) ".sql"))
         (JSMap.keys (parents g)).
Proof.
  intros Hg He. unfold getStartingNode. rewrite Hg, He. simpl.
  destruct (find _ _) as [k|] eqn:Hf; [|reflexivity].
  apply find_some in Hf as [_ Hm]. apply matchesFile_nonempty in Hm.
  apply String.eqb_neq in Hm. now rewrite Hm.
Qed.

(** C2 (amended). The resolver returns a key only if it is a key of the
    downstream-view that starts with [model.] and ends with [.] followed by
    the base name; it returns absent when no key of that view satisfies the
    predicate; and when one or more keys satisfy it, it returns the first
    of them in the view's key order. *)
Theorem resolver_returns_first_match h this g ed :
  getGraphMetaMap h this = Some g ->
  activeTextEditor h = Some ed ->
  let base := path_basename (fileName (document ed)) ".sql" in
  let ks := JSMap.keys (parents g) in
  (forall n, getStartingNode h this = Some n ->
     startsWith (node_table n) "model." = true /\
     endsWith (node_table n) ("." ++ base) = true /\
     exists l1 l2, ks = (l1 ++ node_table n :: l2)%list /\
                   forall k, In k l1 -> matchesFile base k = false) /\
  ((forall k, In k ks -> matchesFile base k = false) ->
   getStartingNode h this = None) /\
  (forall k, In k ks -> matchesFile base k = true ->
     exists n, getStartingNode h this = Some n).
Proof.
  intros Hg He base ks.
  pose proof (getStartingNode_find h this g ed Hg He) as Hfind.
  fold base ks in Hfind.
  split; [|split].
  - intros n Hn. rewrite Hn in Hfind. simpl in Hfind. symmetry in Hfind.
    apply find_first_split in Hfind as [Hm Hsplit].
    unfold matchesFile in Hm. apply andb_true_iff in Hm as [He' Hs].
    now repeat split.
  - intros Hnone. destruct (getStartingNode h this) as [n|]; [|reflexivity].
    simpl in Hfind. symmetry in Hfind. apply find_some in Hfind as [Hin Hm].
    rewrite (Hnone _ Hin) in Hm. discriminate.
  - intros k Hin Hm. destruct (getStartingNode h this) as [n|]; [now exists n|].
    simpl in Hfind. symmetry in Hfind.
    rewrite (find_none _ _ Hfind _ Hin) in Hm. discriminate.
Qed.
End Resolver.

(** ** Project graph store *)
Section Store.
Context `{rt : Runtime}.

Lemma panel_post_eventMap this m : eventMap (panel_post this m) = eventMap this.
Proof. unfold panel_post. now destruct (_panel this). Qed.

Lemma renderStartingNode_eventMap h this :
  eventMap (renderStartingNode h this) = eventMap this.
Proof.
  unfold renderStartingNode. destruct (_panel this); [|reflexivity].
  apply panel_post_eventMap.
Qed.

Lemma onManifestCacheChanged_added h this a :
  eventMap (onManifestCacheChanged h this {| added := Some [a]; removed := None |})
  = <[fsPath (projectRoot a) := a]> (eventMap this).
Proof. unfold onManifestCacheChanged. now rewrite renderStartingNode_eventMap. Qed.

Lemma onManifestCacheChanged_removed h this r :
  eventMap (onManifestCacheChanged h this {| added := None; removed := Some [r] |})
  = delete (fsPath (removed_projectRoot r)) (eventMap this).
Proof. unfold onManifestCacheChanged. now rewrite renderStartingNode_eventMap. Qed.

(** C7. Removing a project that the store does not hold leaves the store
    unchanged, and the project is still absent afterwards. *)
Theorem removed_absent_is_noop h this r :
  eventMap this !! fsPath (removed_projectRoot r) = None ->
  let this' :=
    onManifestCacheChanged h this {| added := None; removed := Some [r] |} in
  eventMap this' = eventMap this /\
  eventMap this' !! fsPath (removed_projectRoot r) = None.
Proof.
  intros Habs this'. unfold this'. rewrite onManifestCacheChanged_removed.
  rewrite delete_id by assumption. now split.
Qed.

(** C8. After an added event for project [p] that follows an earlier added
    event for [p], the store holds exactly the second event's snapshot for
    [p]: the store equals the one obtained had the first event never been
    applied, a query in project [p] reads the second snapshot, and the
    entries of all other projects are those from before both events. *)
Theorem added_replaces_whole_snapshot h1 h2 this a1 a2 :
  fsPath (projectRoot a1) = fsPath (projectRoot a2) ->
  let p := fsPath (projectRoot a2) in
  let this1 :=
    onManifestCacheChanged h1 this {| added := Some [a1]; removed := None |} in
  let this2 :=
    onManifestCacheChanged h2 this1 {| added := Some [a2]; removed := None |} in
  eventMap this2 !! p = Some a2 /\
  eventMap this2 =
    eventMap (onManifestCacheChanged h2 this
                {| added := Some [a2]; removed := None |}) /\
  (forall h ed root,
     activeTextEditor h = Some ed ->
     getProjectRootpath h (uri (document ed)) = Some root ->
     fsPath root = p ->
     getGraphMetaMap h this2 = Some (graphMetaMap a2)) /\
  (forall q, q <> p ->
     eventMap this1 !! q = eventMap this !! q /\
     eventMap this2 !! q = eventMap this !! q).
Proof.
  intros Hp p this1 this2. unfold this2, this1.
  rewrite !onManifestCacheChanged_added. rewrite Hp. fold p.
  rewrite insert_insert_eq.
  split; [apply lookup_insert_eq|]. split; [reflexivity|]. split.
  - intros h ed root He Hr Hroot. unfold getGraphMetaMap.
    rewrite He, Hr, Hroot, onManifestCacheChanged_added.
    now rewrite lookup_insert_eq.
  - intros q Hq. rewrite !lookup_insert_ne by congruence. now split.
Qed.
End Store.

(** ** Query gateway *)
Section Gateway.
Context `{rt : Runtime}.

(** The listener exists from [resolveWebviewView] on, and no operation
    unsets the panel: a request always finds it resolved. *)
Lemma resolved_panel_receives h this panel args :
  exists p, _panel (onDidReceiveMessage h (resolveWebviewView this panel)
                      (Request args)) = Some p.
Proof. simpl. unfold handleRequest, panel_post. simpl. eexists. reflexivity. Qed.

Lemma panel_post_resolved this m p :
  _panel this = Some p -> _panel (panel_post this m) = Some (postMessage p m).
Proof. intros Hp. unfold panel_post. now rewrite Hp. Qed.

Lemma onManifestCacheChanged_resolved h this event p :
  _panel this = Some p ->
  exists p', _panel (onManifestCacheChanged h this event) = Some p'.
Proof.
  intros Hp. unfold onManifestCacheChanged, renderStartingNode, panel_post.
  simpl. rewrite Hp. eexists. reflexivity.
Qed.

(** Without a resolved panel there is no webview to answer. *)
Lemma handleRequest_no_panel h this args :
  _panel this = None -> handleRequest h this args = this.
Proof. intros Hp. unfold handleRequest, panel_post. now rewrite Hp. Qed.

(** For a known url the body is an object even when the query returns
    the absent value: its [tables] field is then undefined. *)
Lemma known_url_body_is_object h this p args :
  _panel this = Some p ->
  args_url args = "upstreamTables" ->
  handleRequest h this args =
    {| _panel :=
         Some {| posted :=
                   posted p ++
                   [Response (args_id args)
                      (Some {| tables := getUpstreamTables h this (params args) |})
                      true] |};
       eventMap := eventMap this |}.
Proof.
  intros Hp Hu. unfold handleRequest, panel_post, postMessage.
  now rewrite Hu, Hp.
Qed.

(** C9. A request whose [url] is neither ["upstreamTables"] nor
    ["downstreamTables"] is answered on the panel that delivered it with a
    response for the request's id whose body is undefined; nothing
    fails and nothing else changes. *)
Theorem unknown_url_response_has_no_body h this p args :
  _panel this = Some p ->
  args_url args <> "upstreamTables" ->
  args_url args <> "downstreamTables" ->
  handleRequest h this args =
    {| _panel := Some {| posted := posted p ++ [Response (args_id args) None true] |};
       eventMap := eventMap this |}.
Proof.
  intros Hp Hu Hd. unfold handleRequest, panel_post, postMessage.
  apply String.eqb_neq in Hu, Hd. now rewrite Hu, Hd, Hp.
Qed.

(** C10. Every response has [status] true, whatever the url, the snapshot
    and the node key: the request is answered by exactly one response for
    its id, with status true. *)
Theorem response_status_is_always_true h this p args :
  _panel this = Some p ->
  exists body,
    handleRequest h this args =
      {| _panel := Some {| posted := posted p ++ [Response (args_id args) body true] |};
         eventMap := eventMap this |}.
Proof.
  intros Hp. unfold handleRequest, panel_post, postMessage. rewrite Hp.
  eexists. reflexivity.
Qed.
End Gateway.

(** ** The code-unit order is a total and transitive comparison *)

Lemma string_compare_le_trans a b c :
  String.compare a b <> Gt -> String.compare b c <> Gt -> String.compare a c <> Gt.
Proof.
  revert b c. induction a as [|x a IH]; intros [|y b] [|z c]; simpl; try congruence.
  unfold Ascii.compare.
  destruct (N.compare_spec (N_of_ascii x) (N_of_ascii y)) as [Exy|Lxy|Gxy];
    try congruence;
    destruct (N.compare_spec (N_of_ascii y) (N_of_ascii z)) as [Eyz|Lyz|Gyz];
    try congruence; intros H1 H2.
  - rewrite Exy, Eyz, N.compare_refl. now apply (IH b c).
  - rewrite Exy, (proj2 (N.compare_lt_iff _ _) Lyz). discriminate.
  - rewrite <- Eyz, (proj2 (N.compare_lt_iff _ _) Lxy). discriminate.
  - rewrite (proj2 (N.compare_lt_iff _ _) (N.lt_trans _ _ _ Lxy Lyz)). discriminate.
Qed.

Lemma codeUnitCompare_le a b : codeUnitCompare a b <= 0 <-> String.compare a b <> Gt.
Proof.
  unfold codeUnitCompare. destruct (String.compare a b); split; intros; try lia; congruence.
Qed.

Lemma codeUnitCompare_total a b : codeUnitCompare a b <= 0 \/ codeUnitCompare b a <= 0.
Proof.
  rewrite !codeUnitCompare_le, (String.compare_antisym a b).
  destruct (String.compare b a); simpl; [left|right|left]; congruence.
Qed.

Lemma codeUnitCompare_trans a b c :
  codeUnitCompare a b <= 0 -> codeUnitCompare b c <= 0 -> codeUnitCompare a c <= 0.
Proof. rewrite !codeUnitCompare_le. apply string_compare_le_trans. Qed.

(** ** The theorems at the sample project *)

(** The spec's scenario: the upstream tables of [orders]. *)
Example sample_upstream_tables :
  @getUpstreamTables sampleRuntime sampleHost samplePanel ordersParams
  = Some sampleUpstream.
Proof. vm_compute. reflexivity. Qed.

(** The stored snapshot of the sample panel. *)
Example sample_snapshot : getGraphMetaMap sampleHost samplePanel = Some sampleGraph.
Proof. vm_compute. reflexivity. Qed.

(** C1, counterexample: [model.proj.nothing] has no entry in the
    upstream-view of the sample snapshot, and the query returns the absent
    value, not the empty sequence. *)
Lemma connected_absent_key_counterexample :
  getGraphMetaMap sampleHost samplePanel = Some sampleGraph /\
  JSMap.get (view sampleGraph Kchildren) "model.proj.nothing" = None /\
  @getConnectedTables sampleRuntime sampleHost samplePanel Kchildren
    "model.proj.nothing" <> Some [].
Proof. split; [|split]; vm_compute; [reflexivity | reflexivity | discriminate]. Qed.

Lemma connected_absent_key_undefined_witness :
  @getConnectedTables sampleRuntime sampleHost samplePanel Kchildren
    "model.proj.nothing" = None.
Proof.
  apply (@connected_absent_key_undefined sampleRuntime sampleHost samplePanel
           Kchildren "model.proj.nothing" sampleGraph);
    vm_compute; reflexivity.
Defined.

(** C2, counterexample: two keys of the downstream-view match the base name
    [orders], and the resolver returns the first of them instead of absent. *)
Lemma resolver_ambiguous_counterexample :
  posixBasename "/proj/models/orders.sql" ".sql" = "orders" /\
  List.filter (matchesFile "orders") (JSMap.keys (parents sampleGraph))
  = ["model.proj.orders"; "model.other.orders"] /\
  @getStartingNode sampleRuntime sampleHost samplePanel
  = Some {| node_table := "model.proj.orders";
            node_url := "/proj/models/orders.sql";
            upstreamCount := 3;
            downstreamCount := 0 |} /\
  @getStartingNode sampleRuntime sampleHost samplePanel <> None.
Proof.
  repeat split; vm_compute; try reflexivity; discriminate.
Qed.

Lemma resolver_returns_first_match_witness :
  exists n, @getStartingNode sampleRuntime sampleHost samplePanel = Some n.
Proof.
  destruct (@resolver_returns_first_match sampleRuntime sampleHost samplePanel
              sampleGraph sampleEditor) as (_ & _ & Hsome).
  - vm_compute. reflexivity.
  - reflexivity.
  - apply (Hsome "model.other.orders").
    + right. right. left. reflexivity.
    + vm_compute. reflexivity.
Defined.

Lemma query_reads_only_selected_view_witness :
  @getUpstreamTables sampleRuntime sampleHost samplePanel ordersParams
  = @getUpstreamTables sampleRuntime sampleHost samplePanel' ordersParams /\
  @getDownstreamTables sampleRuntime sampleHost samplePanel ordersParams
  = @getDownstreamTables sampleRuntime sampleHost samplePanel'' ordersParams.
Proof.
  split.
  - apply (@query_reads_only_selected_view sampleRuntime sampleHost sampleHost
             samplePanel samplePanel' sampleGraph sampleGraph' ordersParams);
      vm_compute; reflexivity.
  - apply (@query_reads_only_selected_view sampleRuntime sampleHost sampleHost
             samplePanel samplePanel'' sampleGraph sampleGraph'' ordersParams);
      vm_compute; reflexivity.
Defined.

Lemma connected_dedup_first_wins_witness :
  List.NoDup (map table sampleUpstream) /\
  (forall c, In c [stgPayments; stgOrders; stgOrdersAgain] ->
     exists e, In e sampleUpstream /\ table e = child_key c) /\
  (forall e, In e sampleUpstream ->
     exists c0,
       firstWithKey (table e) [stgPayments; stgOrders; stgOrdersAgain] = Some c0 /\
       url e = child_url c0 /\
       label e = child_label c0 /\
       count e = degree (children sampleGraph) (child_key c0)).
Proof.
  apply (@connected_dedup_first_wins sampleRuntime sampleHost samplePanel
           Kchildren "model.proj.orders" sampleUpstream sampleGraph
           {| nodes := [stgPayments; stgOrders; stgOrdersAgain] |});
    vm_compute; reflexivity.
Defined.

Lemma connected_sorted_by_label_witness :
  StronglySorted (@labelLe sampleRuntime) sampleUpstream.
Proof.
  apply (@connected_sorted_by_label sampleRuntime sampleHost samplePanel
           Kchildren "model.proj.orders" sampleUpstream
           codeUnitCompare_total codeUnitCompare_trans).
  vm_compute. reflexivity.
Defined.

Lemma connected_count_is_own_degree_witness :
  Forall
    (fun e => count e = match JSMap.get (children sampleGraph) (table e) with
                        | Some n => length (nodes n)
                        | None => 0%nat
                        end)
    sampleUpstream.
Proof.
  apply List.Forall_forall.
  apply (@connected_count_is_own_degree sampleRuntime sampleHost samplePanel
           Kchildren "model.proj.orders" sampleUpstream sampleGraph);
    vm_compute; reflexivity.
Defined.

Lemma removed_absent_is_noop_witness :
  eventMap (@onManifestCacheChanged sampleRuntime sampleHost emptyPanel
              {| added := None;
                 removed := Some [ {| removed_projectRoot := projUri |} ] |})
  = eventMap emptyPanel.
Proof.
  apply (@removed_absent_is_noop sampleRuntime sampleHost emptyPanel
           {| removed_projectRoot := projUri |}).
  reflexivity.
Defined.

Lemma added_replaces_whole_snapshot_witness :
  eventMap
    (@onManifestCacheChanged sampleRuntime sampleHost
       (@onManifestCacheChanged sampleRuntime sampleHost emptyPanel
          {| added := Some [sampleAdded]; removed := None |})
       {| added := Some [sampleAdded']; removed := None |})
  !! "/proj" = Some sampleAdded'.
Proof.
  apply (@added_replaces_whole_snapshot sampleRuntime sampleHost sampleHost
           emptyPanel sampleAdded sampleAdded').
  reflexivity.
Defined.

Lemma unknown_url_response_has_no_body_witness :
  @handleRequest sampleRuntime sampleHost samplePanel columnsRequest
  = {| _panel := Some {| posted := [Response 7 None true] |};
       eventMap := eventMap samplePanel |}.
Proof.
  apply (@unknown_url_response_has_no_body sampleRuntime sampleHost samplePanel
           {| posted := [] |} columnsRequest).
  - reflexivity.
  - discriminate.
  - discriminate.
Defined.

Lemma response_status_is_always_true_witness :
  exists body,
    @handleRequest sampleRuntime sampleHost samplePanel
      {| args_url := "upstreamTables"; args_id := 8; params := ordersParams |}
    = {| _panel := Some {| posted := [Response 8 body true] |};
         eventMap := eventMap samplePanel |}.
Proof.
  apply (@response_status_is_always_true sampleRuntime sampleHost samplePanel
           {| posted := [] |}
           {| args_url := "upstreamTables"; args_id := 8; params := ordersParams |}).
  reflexivity.
Defined.

(** ** The store under arbitrary change events *)
Section StoreEvents.
Context `{rt : Runtime}.

Lemma find_app_first {A} (f : A -> bool) l1 l2 :
  find f (l1 ++ l2) =
    match find f l1 with Some x => Some x | None => find f l2 end.
Proof.
  induction l1 as [|a l1 IH]; simpl; [reflexivity|].
  now destruct (f a).
Qed.

Lemma fold_set_lookup (l : list ManifestCacheProjectAddedEvent)
    (m : gmap string ManifestCacheProjectAddedEvent) q :
  fold_left (fun m a => <[fsPath (projectRoot a) := a]> m) l m !! q =
    match lastAdded q l with Some a => Some a | None => m !! q end.
Proof.
  revert m. induction l as [|a l IH]; intros m; simpl; [reflexivity|].
  rewrite IH. unfold lastAdded. simpl. rewrite find_app_first.
  destruct (find _ (rev l)); [reflexivity|]. simpl. unfold addedRoot.
  destruct (String.eqb_spec (fsPath (projectRoot a)) q) as [<-|Hne].
  - apply lookup_insert_eq.
  - now apply lookup_insert_ne.
Qed.

Lemma fold_delete_lookup_none (l : list ManifestCacheProjectRemovedEvent)
    (m : gmap string ManifestCacheProjectAddedEvent) q :
  m !! q = None ->
  fold_left (fun m r => delete (fsPath (removed_projectRoot r)) m) l m !! q = None.
Proof.
  revert m. induction l as [|r l IH]; intros m Hm; simpl; [assumption|].
  apply IH. rewrite lookup_delete. now case_decide.
Qed.

Lemma fold_delete_lookup_in (l : list ManifestCacheProjectRemovedEvent)
    (m : gmap string ManifestCacheProjectAddedEvent) q :
  In q (map removedRoot l) ->
  fold_left (fun m r => delete (fsPath (removed_projectRoot r)) m) l m !! q = None.
Proof.
  revert m. induction l as [|r l IH]; intros m; simpl; [tauto|].
  intros [<-|Hin].
  - apply fold_delete_lookup_none, lookup_delete_eq.
  - now apply IH.
Qed.

Lemma fold_delete_lookup_notin (l : list ManifestCacheProjectRemovedEvent)
    (m : gmap string ManifestCacheProjectAddedEvent) q :
  ~ In q (map removedRoot l) ->
  fold_left (fun m r => delete (fsPath (removed_projectRoot r)) m) l m !! q = m !! q.
Proof.
  revert m. induction l as [|r l IH]; intros m Hnin; simpl; [reflexivity|].
  simpl in Hnin. rewrite IH by tauto.
  apply lookup_delete_ne. intros E. apply Hnin. now left.
Qed.

Lemma onManifestCacheChanged_eventMap h this event :
  eventMap (onManifestCacheChanged h this event) =
    fold_left (fun m r => delete (fsPath (removed_projectRoot r)) m)
      (visited (removed event))
      (fold_left (fun m a => <[fsPath (projectRoot a) := a]> m)
         (visited (added event)) (eventMap this)).
Proof.
  unfold onManifestCacheChanged. rewrite renderStartingNode_eventMap. simpl.
  now destruct (added event), (removed event).
Qed.

Lemma lastAdded_none p l :
  (forall a, In a l -> addedRoot a <> p) -> lastAdded p l = None.
Proof.
  intros Hl. unfold lastAdded. destruct (find _ (rev l)) as [a|] eqn:Hf; [|reflexivity].
  apply find_some in Hf as [Hin Ha]. apply in_rev in Hin.
  apply String.eqb_eq in Ha. now apply Hl in Hin.
Qed.

(** X1. Within one change event the removals are applied after the
    additions: a project listed under [removed] is absent from the store
    afterwards, also when the same event adds it. *)
Theorem removed_project_is_absent h this event r :
  In r (visited (removed event)) ->
  eventMap (onManifestCacheChanged h this event) !! removedRoot r = None.
Proof.
  intros Hin. rewrite onManifestCacheChanged_eventMap.
  apply fold_delete_lookup_in. now apply in_map.
Qed.

(** X2. A change event leaves the entry of every project that it neither
    adds nor removes as it was. *)
Theorem unmentioned_project_keeps_entry h this event q :
  (forall a, In a (visited (added event)) -> addedRoot a <> q) ->
  (forall r, In r (visited (removed event)) -> removedRoot r <> q) ->
  eventMap (onManifestCacheChanged h this event) !! q = eventMap this !! q.
Proof.
  intros Ha Hr. rewrite onManifestCacheChanged_eventMap.
  rewrite fold_delete_lookup_notin.
  - rewrite fold_set_lookup. now rewrite lastAdded_none.
  - intros Hin. apply in_map_iff in Hin as [r [E Hin]]. now apply Hr in Hin.
Qed.

(** X3. When one change event adds a project several times and does not
    remove it, the store holds the last of these additions. *)
Theorem last_added_wins h this event q a :
  lastAdded q (visited (added event)) = Some a ->
  (forall r, In r (visited (removed event)) -> removedRoot r <> q) ->
  eventMap (onManifestCacheChanged h this event) !! q = Some a.
Proof.
  intros Hl Hr. rewrite onManifestCacheChanged_eventMap.
  rewrite fold_delete_lookup_notin.
  - rewrite fold_set_lookup. now rewrite Hl.
  - intros Hin. apply in_map_iff in Hin as [r [E Hin]]. now apply Hr in Hin.
Qed.

(** X4. Adding a project that the store does not hold and then removing it
    gives back the store from before the two events. *)
Theorem add_then_remove_restores h1 h2 this a r :
  eventMap this !! addedRoot a = None ->
  removedRoot r = addedRoot a ->
  eventMap
    (onManifestCacheChanged h2
       (onManifestCacheChanged h1 this {| added := Some [a]; removed := None |})
       {| added := None; removed := Some [r] |})
  = eventMap this.
Proof.
  intros Habs Hr. rewrite !onManifestCacheChanged_eventMap. simpl.
  fold (removedRoot r). fold (addedRoot a). rewrite Hr.
  now apply delete_insert_id.
Qed.
End StoreEvents.

Lemma removed_project_is_absent_witness :
  eventMap
    (@onManifestCacheChanged sampleRuntime sampleHost emptyPanel
       {| added := Some [sampleAdded]; removed := Some [sampleRemoved] |})
  !! "/proj" = None.
Proof.
  apply (@removed_project_is_absent sampleRuntime sampleHost emptyPanel
           {| added := Some [sampleAdded]; removed := Some [sampleRemoved] |}
           sampleRemoved).
  left. reflexivity.
Defined.

Lemma unmentioned_project_keeps_entry_witness :
  eventMap
    (@onManifestCacheChanged sampleRuntime sampleHost samplePanel
       {| added := Some [otherAdded]; removed := None |})
  !! "/proj" = eventMap samplePanel !! "/proj".
Proof.
  apply (@unmentioned_project_keeps_entry sampleRuntime sampleHost samplePanel
           {| added := Some [otherAdded]; removed := None |} "/proj").
  - intros a [<-|[]]. discriminate.
  - intros r [].
Defined.

Lemma last_added_wins_witness :
  eventMap
    (@onManifestCacheChanged sampleRuntime sampleHost emptyPanel
       {| added := Some [sampleAdded; otherAdded; sampleAdded'];
          removed := None |})
  !! "/proj" = Some sampleAdded'.
Proof.
  apply (@last_added_wins sampleRuntime sampleHost emptyPanel
           {| added := Some [sampleAdded; otherAdded; sampleAdded'];
              removed := None |} "/proj" sampleAdded').
  - reflexivity.
  - intros r [].
Defined.

Lemma add_then_remove_restores_witness :
  eventMap
    (@onManifestCacheChanged sampleRuntime sampleHost
       (@onManifestCacheChanged sampleRuntime sampleHost emptyPanel
          {| added := Some [sampleAdded]; removed := None |})
       {| added := None; removed := Some [sampleRemoved] |})
  = eventMap emptyPanel.
Proof.
  apply (@add_then_remove_restores sampleRuntime sampleHost sampleHost
           emptyPanel sampleAdded sampleRemoved).
  - reflexivity.
  - reflexivity.
Defined.

(** ** What a query reads, and what the panel is told *)
Section Notifications.
Context `{rt : Runtime}.

Lemma getStartingNode_ext h this this' :
  getGraphMetaMap h this = getGraphMetaMap h this' ->
  getStartingNode h this = getStartingNode h this'.
Proof. intros E. unfold getStartingNode. now rewrite E. Qed.

Lemma getConnectedTables_ext h this this' key t :
  getGraphMetaMap h this = getGraphMetaMap h this' ->
  getConnectedTables h this key t = getConnectedTables h this' key t.
Proof. intros E. unfold getConnectedTables. now rewrite E. Qed.

Lemma getGraphMetaMap_active h this ed root :
  activeTextEditor h = Some ed ->
  getProjectRootpath h (uri (document ed)) = Some root ->
  getGraphMetaMap h this = graphMetaMap <$> (eventMap this !! fsPath root).
Proof.
  intros He Hr. unfold getGraphMetaMap. rewrite He, Hr.
  now destruct (eventMap this !! fsPath root).
Qed.

Lemma renderStartingNode_panel h this p :
  _panel this = Some p ->
  renderStartingNode h this =
    {| _panel := Some {| posted := posted p ++ [Render (getStartingNode h this)] |};
       eventMap := eventMap this |}.
Proof.
  intros Hp. unfold renderStartingNode, panel_post, postMessage. now rewrite Hp.
Qed.

(** X5. On a resolved panel every manifest change posts exactly one render
    message after the earlier ones, and its node is the one resolved
    against the store as updated by the event. *)
Theorem manifest_change_renders_updated_node h this event p :
  _panel this = Some p ->
  let st := onManifestCacheChanged h this event in
  _panel st = Some {| posted := posted p ++ [Render (getStartingNode h st)] |}.
Proof.
  intros Hp st. unfold st, onManifestCacheChanged.
  rewrite (renderStartingNode_panel _ _ p) by exact Hp. reflexivity.
Qed.

(** X6. After an event that removes the project of the active file there is
    no starting node, every connected-tables query returns the absent value,
    and a resolved panel is sent a render message without node. *)
Theorem removing_active_project_clears_node h this event r ed root :
  activeTextEditor h = Some ed ->
  getProjectRootpath h (uri (document ed)) = Some root ->
  In r (visited (removed event)) ->
  removedRoot r = fsPath root ->
  let st := onManifestCacheChanged h this event in
  getStartingNode h st = None /\
  (forall key t, getConnectedTables h st key t = None) /\
  (forall p, _panel this = Some p ->
     _panel st = Some {| posted := posted p ++ [Render None] |}).
Proof.
  intros He Hr Hin Hroot st.
  assert (Hg : getGraphMetaMap h st = None).
  { rewrite (getGraphMetaMap_active _ _ ed root He Hr). unfold st.
    rewrite onManifestCacheChanged_eventMap, <- Hroot.
    rewrite fold_delete_lookup_in; [reflexivity | now apply in_map]. }
  assert (Hn : getStartingNode h st = None)
    by (unfold getStartingNode; now rewrite Hg).
  split; [exact Hn|]. split.
  - intros key t. unfold getConnectedTables. now rewrite Hg.
  - intros p Hp. rewrite <- Hn. unfold st, onManifestCacheChanged.
    rewrite (renderStartingNode_panel _ _ p) by exact Hp. reflexivity.
Qed.

(** X7. The resolver and the queries read the store only at the project of
    the active file: two panels whose stores agree on that project give the
    same starting node and the same query results, whatever they hold for
    other projects and whatever was posted to them. *)
Theorem queries_read_only_active_project h this this' ed root :
  activeTextEditor h = Some ed ->
  getProjectRootpath h (uri (document ed)) = Some root ->
  eventMap this !! fsPath root = eventMap this' !! fsPath root ->
  getStartingNode h this = getStartingNode h this' /\
  (forall key t,
     getConnectedTables h this key t = getConnectedTables h this' key t).
Proof.
  intros He Hr Hm.
  assert (Hg : getGraphMetaMap h this = getGraphMetaMap h this')
    by (rewrite !(getGraphMetaMap_active _ _ ed root He Hr); now rewrite Hm).
  split; [now apply getStartingNode_ext|].
  intros key t. now apply getConnectedTables_ext.
Qed.

(** X8. A message from the webview never changes the store.  A request is
    answered on a resolved panel by exactly one response with the request's
    id, appended after the earlier messages; any other message, and any
    message without a panel, leaves the panel as it was. *)
Theorem received_message_effects h this message :
  let st := onDidReceiveMessage h this message in
  eventMap st = eventMap this /\
  (forall args p, message = Request args -> _panel this = Some p ->
     exists body,
       outbox st = (posted p ++ [Response (args_id args) body true])%list) /\
  ((forall args, message <> Request args) -> st = this) /\
  (_panel this = None -> st = this).
Proof.
  intros st. unfold st. split; [|split; [|split]].
  - destruct message; simpl; try reflexivity.
    unfold handleRequest. apply panel_post_eventMap.
  - intros args p -> Hp. simpl. unfold handleRequest, panel_post, outbox.
    rewrite Hp. simpl. eexists. reflexivity.
  - intros Hne. destruct message as [u|args|]; simpl; try reflexivity.
    now destruct (Hne args).
  - intros Hp. destruct message as [u|args|]; simpl; try reflexivity.
    unfold handleRequest, panel_post. now rewrite Hp.
Qed.

(** X9. A change of the active editor never changes the store.  With a
    defined event and a resolved panel it posts one render message whose
    node is resolved from the host's active editor, not from the event; with
    an undefined event or without a panel nothing happens. *)
Theorem editor_change_effects h this event :
  let st := onDidChangeActiveTextEditor h this event in
  eventMap st = eventMap this /\
  (forall ed p, event = Some ed -> _panel this = Some p ->
     outbox st = (posted p ++ [Render (getStartingNode h this)])%list) /\
  (event = None -> st = this) /\
  (_panel this = None -> st = this).
Proof.
  intros st. unfold st, onDidChangeActiveTextEditor. split; [|split; [|split]].
  - destruct event; [|reflexivity]. destruct (_panel this) eqn:Hp; [|reflexivity].
    apply renderStartingNode_eventMap.
  - intros ed p -> Hp. rewrite Hp, (renderStartingNode_panel _ _ p) by exact Hp.
    reflexivity.
  - now intros ->.
  - intros Hp. rewrite Hp. now destruct event.
Qed.
End Notifications.

Lemma manifest_change_renders_updated_node_witness :
  _panel (@onManifestCacheChanged sampleRuntime sampleHost emptyPanel
            {| added := Some [sampleAdded]; removed := None |})
  = Some {| posted :=
              [Render (Some {| node_table := "model.proj.orders";
                               node_url := "/proj/models/orders.sql";
                               upstreamCount := 3;
                               downstreamCount := 0 |})] |}.
Proof.
  rewrite (@manifest_change_renders_updated_node sampleRuntime sampleHost
             emptyPanel {| added := Some [sampleAdded]; removed := None |}
             {| posted := [] |}).
  - vm_compute. reflexivity.
  - reflexivity.
Defined.

Lemma removing_active_project_clears_node_witness :
  @getStartingNode sampleRuntime sampleHost
    (@onManifestCacheChanged sampleRuntime sampleHost samplePanel
       {| added := None; removed := Some [sampleRemoved] |}) = None.
Proof.
  apply (@removing_active_project_clears_node sampleRuntime sampleHost
           samplePanel {| added := None; removed := Some [sampleRemoved] |}
           sampleRemoved sampleEditor projUri).
  - reflexivity.
  - reflexivity.
  - left. reflexivity.
  - reflexivity.
Defined.

Lemma queries_read_only_active_project_witness :
  @getStartingNode sampleRuntime sampleHost samplePanel
  = @getStartingNode sampleRuntime sampleHost
      (@onManifestCacheChanged sampleRuntime sampleHost samplePanel
         {| added := Some [otherAdded]; removed := None |}).
Proof.
  apply (@queries_read_only_active_project sampleRuntime sampleHost samplePanel
           (@onManifestCacheChanged sampleRuntime sampleHost samplePanel
              {| added := Some [otherAdded]; removed := None |})
           sampleEditor projUri).
  - reflexivity.
  - reflexivity.
  - vm_compute. reflexivity.
Defined.

(** ** Size and order of a query result, and the counts shown for a node *)
Section QueryShape.
Context `{rt : Runtime}.

Lemma connected_keys_perm h this key t r g node :
  getGraphMetaMap h this = Some g ->
  JSMap.get (view g key) t = Some node ->
  getConnectedTables h this key t = Some r ->
  Permutation (map table r) (nodup string_dec (map child_key (nodes node))).
Proof.
  intros Hg Hn Hr.
  apply getConnectedTables_Some in Hr as (g0 & node0 & Hg0 & Hn0 & Hperm & _).
  rewrite Hg in Hg0. injection Hg0 as <-.
  rewrite Hn in Hn0. injection Hn0 as <-.
  destruct (dedup_entries (view g key) (nodes node)) as [Hnd Hent].
  rewrite <- Hperm.
  apply Permutation.NoDup_Permutation; [exact Hnd | apply NoDup_nodup |].
  intros k. rewrite nodup_In, !in_map_iff. split.
  - intros [e [<- He]]. apply Hent in He as [c [Hf ->]].
    exists c. split; [reflexivity | exact (firstWithKey_In_nodes _ _ _ Hf)].
  - intros [c [<- Hc]]. destruct (firstWithKey_exists _ _ Hc) as [c0 Hf].
    exists (tableOf (view g key) c0). split.
    + simpl. now apply firstWithKey_key in Hf.
    + apply Hent. exists c0. split; [|reflexivity]. simpl.
      now rewrite (firstWithKey_key _ _ _ Hf).
Qed.

Lemma connected_length_le h this key t g node :
  getGraphMetaMap h this = Some g ->
  JSMap.get (view g key) t = Some node ->
  exists r, getConnectedTables h this key t = Some r /\
            (length r <= length (nodes node))%nat.
Proof.
  intros Hg Hn.
  destruct (getConnectedTables h this key t) as [r|] eqn:Hr.
  - exists r. split; [reflexivity|].
    pose proof (connected_keys_perm _ _ _ _ _ _ _ Hg Hn Hr) as Hp.
    apply Permutation_length in Hp. rewrite length_map in Hp. rewrite Hp.
    rewrite <- (length_map child_key (nodes node)).
    apply NoDup_incl_length; [apply NoDup_nodup|].
    intros k Hk. now apply nodup_In in Hk.
  - unfold getConnectedTables in Hr. rewrite Hg, Hn in Hr. discriminate.
Qed.

Lemma Array_sort_sorted_id {A} (cmp : A -> A -> Z) l :
  Sorted (fun a b => cmp a b <= 0) l -> Array_sort cmp l = l.
Proof.
  induction 1 as [|x l Hs IH Hhd]; simpl; [reflexivity|].
  rewrite IH. destruct Hhd as [|y l' Hxy]; simpl; [reflexivity|].
  apply Z.leb_le in Hxy. now rewrite Hxy.
Qed.

Lemma fold_addChild_fresh dn l acc :
  List.NoDup (JSMap.keys acc ++ map child_key l)%list ->
  fold_left (addChild dn) l acc =
    (acc ++ map (fun c => (child_key c, tableOf dn c)) l)%list.
Proof.
  revert acc. induction l as [|c l IH]; intros acc Hnd; simpl.
  - now rewrite app_nil_r.
  - assert (Hfresh : JSMap.get acc (child_key c) = None).
    { apply JSMapFacts.get_None_keys. intros Hin.
      apply NoDup_remove_2 in Hnd. apply Hnd. apply in_or_app. now left. }
    assert (Hstep : addChild dn acc c = (acc ++ [(child_key c, tableOf dn c)])%list).
    { unfold addChild, addToTables, JSMap.has. rewrite Hfresh.
      now apply JSMapFacts.set_fresh. }
    rewrite Hstep, IH.
    + now rewrite <- app_assoc.
    + rewrite JSMapFacts.keys_app. simpl. rewrite <- app_assoc. exact Hnd.
Qed.

Lemma Sorted_map_tableOf dn l :
  Sorted (fun a b => localeCompare (child_label a) (child_label b) <= 0) l ->
  Sorted labelLe (map (tableOf dn) l).
Proof.
  induction 1 as [|x l Hs IH Hhd]; simpl; constructor; [assumption|].
  destruct Hhd; simpl; constructor. assumption.
Qed.

(** X10. A node that has an entry in the selected view always gets a
    sequence, and the sequence is empty exactly when the node's neighbor
    sequence is empty. *)
Theorem present_node_gets_sequence h this key t g node :
  getGraphMetaMap h this = Some g ->
  JSMap.get (view g key) t = Some node ->
  exists r, getConnectedTables h this key t = Some r /\
            (r = [] <-> nodes node = []).
Proof.
  intros Hg Hn.
  destruct (connected_length_le _ _ _ _ _ _ Hg Hn) as [r [Hr Hle]].
  exists r. split; [exact Hr|]. split.
  - intros ->. pose proof (connected_keys_perm _ _ _ _ _ _ _ Hg Hn Hr) as Hp.
    simpl in Hp. apply Permutation_nil in Hp.
    destruct (nodes node) as [|c l]; [reflexivity|].
    assert (Hin : In (child_key c) (nodup string_dec (map child_key (c :: l))))
      by (apply nodup_In; now left).
    rewrite Hp in Hin. destruct Hin.
  - intros E. rewrite E in Hle. simpl in Hle. destruct r; [reflexivity|].
    simpl in Hle. lia.
Qed.

(** X11. The number of tables returned is the number of distinct keys in
    the node's neighbor sequence; it never exceeds the length of that
    sequence. *)
Theorem result_length_is_distinct_keys h this key t r g node :
  getGraphMetaMap h this = Some g ->
  JSMap.get (view g key) t = Some node ->
  getConnectedTables h this key t = Some r ->
  length r = length (nodup string_dec (map child_key (nodes node))) /\
  (length r <= length (nodes node))%nat.
Proof.
  intros Hg Hn Hr. split.
  - pose proof (connected_keys_perm _ _ _ _ _ _ _ Hg Hn Hr) as Hp.
    apply Permutation_length in Hp. now rewrite length_map in Hp.
  - destruct (connected_length_le _ _ _ _ _ _ Hg Hn) as [r' [Hr' Hle]].
    rewrite Hr in Hr'. now injection Hr' as <-.
Qed.

(** X12. When the neighbor sequence has pairwise distinct keys and is
    already in label order, the result lists the neighbors in the same
    order, one table per neighbor. *)
Theorem sorted_distinct_neighbors_keep_order h this key t g node :
  getGraphMetaMap h this = Some g ->
  JSMap.get (view g key) t = Some node ->
  List.NoDup (map child_key (nodes node)) ->
  Sorted (fun a b => localeCompare (child_label a) (child_label b) <= 0)
    (nodes node) ->
  getConnectedTables h this key t = Some (map (tableOf (view g key)) (nodes node)).
Proof.
  intros Hg Hn Hnd Hs. unfold getConnectedTables. rewrite Hg, Hn.
  rewrite fold_addChild_fresh by exact Hnd. simpl.
  unfold JSMap.values. rewrite map_map. simpl.
  f_equal. apply Array_sort_sorted_id. now apply Sorted_map_tableOf.
Qed.

Lemma getStartingNode_inv h this n :
  getStartingNode h this = Some n ->
  exists g ed,
    getGraphMetaMap h this = Some g /\
    activeTextEditor h = Some ed /\
    In (node_table n) (JSMap.keys (parents g)) /\
    node_url n = path (uri (document ed)) /\
    upstreamCount n = degree (children g) (node_table n) /\
    downstreamCount n = degree (parents g) (node_table n).
Proof.
  unfold getStartingNode.
  destruct (getGraphMetaMap h this) as [g|]; [|discriminate].
  destruct (activeTextEditor h) as [ed|]; [|discriminate]. simpl.
  destruct (find _ _) as [k|] eqn:Hf; [|discriminate].
  destruct (String.eqb k ""); [discriminate|].
  intros [= <-]. exists g, ed. simpl.
  apply find_some in Hf as [Hin _]. now repeat split.
Qed.

(** X13. The starting node carries the path of the active document as its
    url; its upstream count is the length of its entry in the
    upstream-view, 0 without entry; its key always has an entry in the
    downstream-view, whose length is the downstream count. *)
Theorem starting_node_counts h this g ed n :
  getGraphMetaMap h this = Some g ->
  activeTextEditor h = Some ed ->
  getStartingNode h this = Some n ->
  node_url n = path (uri (document ed)) /\
  upstreamCount n = match JSMap.get (children g) (node_table n) with
                    | Some m => length (nodes m)
                    | None => 0%nat
                    end /\
  exists m, JSMap.get (parents g) (node_table n) = Some m /\
            downstreamCount n = length (nodes m).
Proof.
  intros Hg He Hn.
  apply getStartingNode_inv in Hn as (g0 & ed0 & Hg0 & He0 & Hin & Hu & Hup & Hdown).
  rewrite Hg in Hg0. injection Hg0 as <-.
  rewrite He in He0. injection He0 as <-.
  split; [exact Hu|]. split; [exact Hup|].
  unfold degree in Hdown.
  destruct (JSMap.get (parents g) (node_table n)) as [m|] eqn:Hm.
  - now exists m.
  - apply JSMapFacts.get_None_keys in Hm. contradiction.
Qed.

(** X14. The starting node can always be expanded downstream: the
    downstream query for its key returns a sequence, of at most
    [downstreamCount] tables.  The upstream query returns at most
    [upstreamCount] tables, and when it returns the absent value the
    upstream count is 0. *)
Theorem starting_node_expands h this n :
  getStartingNode h this = Some n ->
  (exists r,
     getDownstreamTables h this {| params_table := node_table n |} = Some r /\
     (length r <= downstreamCount n)%nat) /\
  match getUpstreamTables h this {| params_table := node_table n |} with
  | Some r => (length r <= upstreamCount n)%nat
  | None => upstreamCount n = 0%nat
  end.
Proof.
  intros Hn.
  apply getStartingNode_inv in Hn as (g & ed & Hg & He & Hin & _ & Hup & Hdown).
  unfold getDownstreamTables, getUpstreamTables. simpl. split.
  - destruct (JSMap.get (parents g) (node_table n)) as [m|] eqn:Hm.
    + destruct (connected_length_le h this Kparents _ g m Hg Hm) as [r [Hr Hle]].
      exists r. split; [exact Hr|]. unfold degree in Hdown.
      now rewrite Hm in Hdown; rewrite Hdown.
    + apply JSMapFacts.get_None_keys in Hm. contradiction.
  - unfold degree in Hup.
    destruct (JSMap.get (children g) (node_table n)) as [m|] eqn:Hm.
    + destruct (connected_length_le h this Kchildren _ g m Hg Hm) as [r [Hr Hle]].
      rewrite Hr. now rewrite Hup.
    + unfold getConnectedTables. rewrite Hg. simpl. now rewrite Hm.
Qed.

(** X15. The [count] of a result entry bounds the next expansion: querying
    the entry's own key in the same direction returns at most [count]
    tables, and returns the absent value only when [count] is 0. *)
Theorem neighbor_count_bounds_expansion h this key t r e :
  getConnectedTables h this key t = Some r ->
  In e r ->
  match getConnectedTables h this key (table e) with
  | Some r' => (length r' <= count e)%nat
  | None => count e = 0%nat
  end.
Proof.
  intros Hr He.
  apply getConnectedTables_Some in Hr as (g & node & Hg & _ & Hperm & _).
  apply (Permutation_in _ (Permutation_sym Hperm)) in He.
  apply (dedup_entries (view g key) (nodes node)) in He as [c [_ ->]].
  simpl. unfold degree.
  destruct (JSMap.get (view g key) (child_key c)) as [m|] eqn:Hm.
  - destruct (connected_length_le h this key _ g m Hg Hm) as [r' [Hr' Hle]].
    now rewrite Hr'.
  - unfold getConnectedTables. now rewrite Hg, Hm.
Qed.
End QueryShape.

Lemma present_node_gets_sequence_witness :
  exists r,
    @getConnectedTables sampleRuntime sampleHost samplePanel Kparents
      "model.proj.orders" = Some r /\
    (r = [] <-> @nil Child = []).
Proof.
  apply (@present_node_gets_sequence sampleRuntime sampleHost samplePanel
           Kparents "model.proj.orders" sampleGraph {| nodes := [] |});
    vm_compute; reflexivity.
Defined.

Lemma result_length_is_distinct_keys_witness :
  length sampleUpstream
  = length (nodup string_dec
              (map child_key [stgPayments; stgOrders; stgOrdersAgain])) /\
  (length sampleUpstream <= 3)%nat.
Proof.
  apply (@result_length_is_distinct_keys sampleRuntime sampleHost samplePanel
           Kchildren "model.proj.orders" sampleUpstream sampleGraph
           {| nodes := [stgPayments; stgOrders; stgOrdersAgain] |});
    vm_compute; reflexivity.
Defined.

Lemma sorted_distinct_neighbors_keep_order_witness :
  @getConnectedTables sampleRuntime sampleHost sortedPanel Kchildren
    "model.proj.orders"
  = Some (map (tableOf (children sortedGraph)) [stgOrders; stgPayments]).
Proof.
  apply (@sorted_distinct_neighbors_keep_order sampleRuntime sampleHost
           sortedPanel Kchildren "model.proj.orders" sortedGraph
           {| nodes := [stgOrders; stgPayments] |}).
  - vm_compute. reflexivity.
  - vm_compute. reflexivity.
  - simpl. repeat constructor; simpl; intuition discriminate.
  - simpl. repeat constructor. vm_compute. discriminate.
Defined.

Lemma starting_node_counts_witness :
  exists n,
    @getStartingNode sampleRuntime sampleHost samplePanel = Some n /\
    node_url n = "/proj/models/orders.sql" /\
    upstreamCount n = 3%nat /\
    downstreamCount n = 0%nat.
Proof.
  eexists. split; [vm_compute; reflexivity|].
  destruct (@starting_node_counts sampleRuntime sampleHost samplePanel
              sampleGraph sampleEditor
              {| node_table := "model.proj.orders";
                 node_url := "/proj/models/orders.sql";
                 upstreamCount := 3;
                 downstreamCount := 0 |})
    as (Hu & Hup & m & Hm & Hdown).
  - vm_compute. reflexivity.
  - reflexivity.
  - vm_compute. reflexivity.
  - split; [exact Hu|]. split; reflexivity.
Defined.

Lemma starting_node_expands_witness :
  exists r,
    @getDownstreamTables sampleRuntime sampleHost samplePanel
      {| params_table := "model.proj.orders" |} = Some r /\
    (length r <= 0)%nat.
Proof.
  apply (@starting_node_expands sampleRuntime sampleHost samplePanel
           {| node_table := "model.proj.orders";
              node_url := "/proj/models/orders.sql";
              upstreamCount := 3;
              downstreamCount := 0 |}).
  vm_compute. reflexivity.
Defined.

Lemma neighbor_count_bounds_expansion_witness :
  match @getConnectedTables sampleRuntime sampleHost samplePanel Kchildren
          "model.proj.stg_orders" with
  | Some r' => (length r' <= 1)%nat
  | None => 1%nat = 0%nat
  end.
Proof.
  apply (@neighbor_count_bounds_expansion sampleRuntime sampleHost samplePanel
           Kchildren "model.proj.orders" sampleUpstream
           {| table := "model.proj.stg_orders";
              url := "/proj/models/stg_orders.sql";
              count := 1; label := "stg_orders" |}).
  - vm_compute. reflexivity.
  - left. reflexivity.
Defined.

(** ** The nonce *)
Section Nonce.

Lemma string_length_append (a b : string) :
  String.length (a ++ b) = (String.length a + String.length b)%nat.
Proof. induction a as [|c a IH]; simpl; [reflexivity | now rewrite IH]. Qed.

Lemma list_ascii_of_string_append (a b : string) :
  list_ascii_of_string (a ++ b)
  = (list_ascii_of_string a ++ list_ascii_of_string b)%list.
Proof. induction a as [|c a IH]; simpl; [reflexivity | now rewrite IH]. Qed.

Lemma string_get_In s n c :
  String.get n s = Some c -> In c (list_ascii_of_string s).
Proof.
  revert n. induction s as [|x s IH]; intros n; simpl; [discriminate|].
  destruct n as [|n].
  - intros [= ->]. now left.
  - intros Hg. right. now apply (IH n).
Qed.

Lemma string_get_lt s n : (n < String.length s)%nat -> exists c, String.get n s = Some c.
Proof.
  revert n. induction s as [|x s IH]; intros n; simpl; [lia|].
  destruct n as [|n]; [now exists x|]. intros Hn. apply IH. lia.
Qed.

Lemma charAt_chars s n :
  Forall (fun c => In c (list_ascii_of_string s)) (list_ascii_of_string (charAt s n)).
Proof.
  unfold charAt. destruct (String.get n s) as [c|] eqn:Hg; simpl.
  - repeat constructor. now apply string_get_In in Hg.
  - constructor.
Qed.

Lemma charAt_length_le s n : (String.length (charAt s n) <= 1)%nat.
Proof. unfold charAt. destruct (String.get n s); simpl; lia. Qed.

Lemma charAt_length_in s n :
  (n < String.length s)%nat -> String.length (charAt s n) = 1%nat.
Proof.
  intros Hn. unfold charAt. now destruct (string_get_lt s n Hn) as [c ->].
Qed.

Variable rand : nat -> nat.

Lemma getNonce_loop_chars n i text :
  Forall (fun c => In c (list_ascii_of_string possible)) (list_ascii_of_string text) ->
  Forall (fun c => In c (list_ascii_of_string possible))
    (list_ascii_of_string (getNonce_loop rand i n text)).
Proof.
  revert i text. induction n as [|n IH]; intros i text Ht; simpl; [assumption|].
  apply IH. rewrite list_ascii_of_string_append. apply Forall_app.
  split; [assumption | apply charAt_chars].
Qed.

Lemma getNonce_loop_length_le n i text :
  (String.length (getNonce_loop rand i n text) <= String.length text + n)%nat.
Proof.
  revert i text. induction n as [|n IH]; intros i text; simpl; [lia|].
  specialize (IH (S i) (text ++ charAt possible (rand i))).
  rewrite string_length_append in IH.
  pose proof (charAt_length_le possible (rand i)). lia.
Qed.

Lemma getNonce_loop_length n i text :
  (forall j, i <= j < i + n -> rand j < String.length possible)%nat ->
  String.length (getNonce_loop rand i n text) = (String.length text + n)%nat.
Proof.
  revert i text. induction n as [|n IH]; intros i text Hr; simpl; [lia|].
  rewrite IH by (intros j Hj; apply Hr; lia).
  rewrite string_length_append, charAt_length_in by (apply Hr; lia). lia.
Qed.

(** X16. A nonce consists of characters of the alphabet [A-Za-z0-9] only
    and has at most 32 of them; it has exactly 32 when every index drawn is
    below the length of the alphabet, as [Math.floor(Math.random() * 62)]
    is. *)
Theorem nonce_is_alphanumeric_of_length_32 :
  Forall (fun c => In c (list_ascii_of_string possible))
    (list_ascii_of_string (getNonce rand)) /\
  (String.length (getNonce rand) <= 32)%nat /\
  ((forall i, i < 32 -> rand i < 62)%nat ->
   String.length (getNonce rand) = 32%nat).
Proof.
  unfold getNonce. split; [|split].
  - apply getNonce_loop_chars. constructor.
  - apply (getNonce_loop_length_le 32 0 EmptyString).
  - intros Hr. rewrite getNonce_loop_length; [reflexivity|].
    intros j Hj. change (String.length possible) with 62%nat. apply Hr. lia.
Qed.
End Nonce.

Lemma nonce_is_alphanumeric_of_length_32_witness :
  String.length (getNonce sampleRand) = 32%nat.
Proof.
  apply (nonce_is_alphanumeric_of_length_32 sampleRand).
  intros i _. unfold sampleRand. apply Nat.mod_upper_bound. discriminate.
Defined.

(** ** What a response tells about the query *)
Section GatewayBody.
Context `{rt : Runtime}.

Lemma getConnectedTables_None_iff h this key t :
  getConnectedTables h this key t = None <->
  (forall g, getGraphMetaMap h this = Some g -> JSMap.get (view g key) t = None).
Proof.
  unfold getConnectedTables. destruct (getGraphMetaMap h this) as [g|].
  - destruct (JSMap.get (view g key) t) as [node|] eqn:Hn; split.
    + discriminate.
    + intros Hall. specialize (Hall g eq_refl). rewrite Hn in Hall. discriminate.
    + intros _ g0 [= <-]. exact Hn.
    + reflexivity.
  - split; [intros _ g; discriminate | reflexivity].
Qed.

(** X17. For the two known urls the response body is an object: an
    ["upstreamTables"] request carries the query on the upstream-view
    ([children]), a ["downstreamTables"] request the query on the
    downstream-view ([parents]); its [tables] field is undefined exactly
    when no snapshot is resolved for the active file or the snapshot's view
    has no entry for the requested table. *)
Theorem known_url_tables_undefined_iff h this p args key :
  _panel this = Some p ->
  (args_url args = "upstreamTables" /\ key = Kchildren) \/
  (args_url args = "downstreamTables" /\ key = Kparents) ->
  exists T,
    outbox (handleRequest h this args)
    = (posted p ++ [Response (args_id args) (Some {| tables := T |}) true])%list /\
    T = getConnectedTables h this key (params_table (params args)) /\
    (T = None <->
     forall g, getGraphMetaMap h this = Some g ->
               JSMap.get (view g key) (params_table (params args)) = None).
Proof.
  intros Hp Hurl.
  exists (getConnectedTables h this key (params_table (params args))).
  split; [|split; [reflexivity | apply getConnectedTables_None_iff]].
  unfold handleRequest, panel_post, outbox, getUpstreamTables, getDownstreamTables.
  rewrite Hp. simpl.
  destruct Hurl as [[-> ->]|[-> ->]]; reflexivity.
Qed.
End GatewayBody.

Lemma known_url_tables_undefined_iff_witness :
  exists T,
    outbox (@handleRequest sampleRuntime sampleHost samplePanel
              {| args_url := "downstreamTables"; args_id := 9;
                 params := {| params_table := "model.proj.nothing" |} |})
    = [Response 9 (Some {| tables := T |}) true] /\
    T = None.
Proof.
  destruct (@known_url_tables_undefined_iff sampleRuntime sampleHost samplePanel
              {| posted := [] |}
              {| args_url := "downstreamTables"; args_id := 9;
                 params := {| params_table := "model.proj.nothing" |} |}
              Kparents) as (T & Hout & HT & _).
  - reflexivity.
  - right. split; reflexivity.
  - exists T. split; [exact Hout|]. rewrite HT. vm_compute. reflexivity.
Defined.
